(** * Yank.pipeline: [find_components]

    A shallow embedding of [src/Yank/pipeline.py] and the properties of the
    atom-index partition it returns.

    The module has one constant, [_SOLVENT_RESNAMES], and one function,
    [find_components].  The function calls into MDTraj twice
    ([Topology.from_openmm] and [Topology.select]); both calls may raise and
    both are external to the repository, so they are parameters of the
    development.  Everything else (the two list comprehensions, the
    [frozenset], the dictionary that is returned) is modelled as written. *)

From stdpp Require Import gmap strings list sorting.

Open Scope string_scope.
Open Scope list_scope.
Open Scope Z_scope.

(** ** Data model *)

(** [atom.residue.name] and [atom.index] are the only attributes read. *)
Record Residue := mkResidue { name : string }.

Record Atom := mkAtom { index : Z; residue : Residue }.

#[export] Instance Residue_eq_dec : EqDecision Residue.
Proof. solve_decision. Defined.

#[export] Instance Atom_eq_dec : EqDecision Atom.
Proof. solve_decision. Defined.

(** An [mdtraj.Topology], seen through its [atoms] iterator: the atoms in
    iteration order. *)
Record Topology := mkTopology { atoms : list Atom }.

(** Python exceptions raised by the library calls. *)
Inductive Exn :=
  | TypeError (msg : string)
  | ValueError (msg : string).

Inductive Result (A : Type) :=
  | Ok (a : A)
  | Raise (e : Exn).
Arguments Ok {A} a.
Arguments Raise {A} e.

(** The [topology] argument: an [mdtraj.Topology], or any other object
    (an OpenMM topology, described by the residue name of each of its atoms
    in order, or an object of an unrelated type). *)
Inductive Foreign :=
  | OpenmmTopology (resnames : list string)
  | PyObject (type_name : string).

Inductive TopologyArg :=
  | MdtrajTopology (t : Topology)
  | NotMdtraj (o : Foreign).

(** [isinstance(topology, mdtraj.Topology)] *)
Definition isinstance_mdtraj (topology : TopologyArg) : bool :=
  match topology with
  | MdtrajTopology _ => true
  | NotMdtraj _ => false
  end.

(** ** The solvent and ion residue names (lines 23-44) *)

Definition _SOLVENT_RESNAMES_literal : list string :=
  ["118"; "119"; "1AL"; "1CU"; "2FK"; "2HP"; "2OF"; "3CO"; "3MT";
   "3NI"; "3OF"; "4MO"; "543"; "6MO"; "ACT"; "AG"; "AL"; "ALF"; "ATH";
   "AU"; "AU3"; "AUC"; "AZI"; "Ag"; "BA"; "BAR"; "BCT"; "BEF"; "BF4";
   "BO4"; "BR"; "BS3"; "BSY"; "Be"; "CA"; "CA+2"; "Ca+2"; "CAC"; "CAD";
   "CAL"; "CD"; "CD1"; "CD3"; "CD5"; "CE"; "CES"; "CHT"; "CL"; "CL-";
   "CLA"; "Cl-"; "CO"; "CO3"; "CO5"; "CON"; "CR"; "CS"; "CSB"; "CU";
   "CU1"; "CU3"; "CUA"; "CUZ"; "CYN"; "Cl-"; "Cr"; "DME"; "DMI"; "DSC";
   "DTI"; "DY"; "E4N"; "EDR"; "EMC"; "ER3"; "EU"; "EU3"; "F"; "FE"; "FE2";
   "FPO"; "GA"; "GD3"; "GEP"; "HAI"; "HG"; "HGC"; "HOH"; "IN"; "IOD";
   "ION"; "IR"; "IR3"; "IRI"; "IUM"; "K"; "K+"; "KO4"; "LA"; "LCO"; "LCP";
   "LI"; "LIT"; "LU"; "MAC"; "MG"; "MH2"; "MH3"; "MLI"; "MMC"; "MN";
   "MN3"; "MN5"; "MN6"; "MO1"; "MO2"; "MO3"; "MO4"; "MO5"; "MO6"; "MOO";
   "MOS"; "MOW"; "MW1"; "MW2"; "MW3"; "NA"; "NA+2"; "NA2"; "NA5"; "NA6";
   "NAO"; "NAW"; "Na+2"; "NET"; "NH4"; "NI"; "NI1"; "NI2"; "NI3"; "NO2";
   "NO3"; "NRU"; "Na+"; "O4M"; "OAA"; "OC1"; "OC2"; "OC3"; "OC4"; "OC5";
   "OC6"; "OC7"; "OC8"; "OCL"; "OCM"; "OCN"; "OCO"; "OF1"; "OF2"; "OF3";
   "OH"; "OS"; "OS4"; "OXL"; "PB"; "PBM"; "PD"; "PER"; "PI"; "PO3"; "PO4";
   "POT"; "PR"; "PT"; "PT4"; "PTN"; "RB"; "RH3"; "RHD"; "RU"; "RUB"; "Ra";
   "SB"; "SCN"; "SE4"; "SEK"; "SM"; "SMO"; "SO3"; "SO4"; "SOD"; "SR";
   "Sm"; "Sn"; "T1A"; "TB"; "TBA"; "TCN"; "TEA"; "THE"; "TL"; "TMA";
   "TRA"; "UNX"; "V"; "V2+"; "VN3"; "VO4"; "W"; "WO5"; "Y1"; "YB"; "YB2";
   "YH"; "YT3"; "ZN"; "ZN2"; "ZN3"; "ZNA"; "ZNO"; "ZO3"].

(** [frozenset([...])] *)
Definition _SOLVENT_RESNAMES : gset string :=
  list_to_set _SOLVENT_RESNAMES_literal.

(** ** Library calls, exceptions and interpreter state

    A computation reads and possibly writes the state of the interpreter
    ([World]) and either returns a value or raises.  An exception ends the
    computation at the point where it is raised. *)

Definition M (World A : Type) : Type := World → Result A * World.

#[export] Instance M_ret {World} : MRet (M World) :=
  λ A (a : A) w, (Ok a, w).

#[export] Instance M_bind {World} : MBind (M World) :=
  λ A B (k : A → M World B) (m : M World A) w,
    match m w with
    | (Ok a, w1) => k a w1
    | (Raise e, w1) => (Raise e, w1)
    end.

(** [raise e] *)
Definition raise {World A} (e : Exn) : M World A := λ w, (Raise e, w).

(** The interface of MDTraj used by the module. *)
Class Mdtraj (World : Type) := {
  (** [mdtraj.Topology.from_openmm(value)] *)
  from_openmm : Foreign → M World Topology;
  (** [top.select(selection_string).tolist()] *)
  select : Topology → string → M World (list Z);
}.

(** ** [find_components] (lines 46-92) *)

Section find_components.
Context {World : Type} `{!Mdtraj World}.

(** Lines 74-77: an [mdtraj.Topology] is used as it is, anything else goes
    through [from_openmm]. *)
Definition to_mdtraj (topology : TopologyArg) : M World Topology :=
  match topology with
  | MdtrajTopology t => mret t
  | NotMdtraj o => from_openmm o
  end.

(** [atom_indices[key]] is read with [!!!]; every key that is read has been
    assigned before (see [find_components_keys] for the returned keys). *)
Definition find_components (topology : TopologyArg) (ligand_dsl : string)
    (solvent_resnames : gset string) : M World (gmap string (list Z)) :=
  let atom_indices : gmap string (list Z) := ∅ in
  mdtraj_top ← to_mdtraj topology;
  ligand ← select mdtraj_top ligand_dsl;
  let atom_indices := <["ligand" := ligand]> atom_indices in
  let atom_indices :=
    <["solvent" :=
        index <$> filter (λ atom, name (residue atom) ∈ solvent_resnames)
                         (atoms mdtraj_top)]> atom_indices in
  let not_receptor_set : gset Z :=
    list_to_set ((atom_indices !!! "ligand") ++ (atom_indices !!! "solvent")) in
  let atom_indices :=
    <["receptor" :=
        index <$> filter (λ atom, index atom ∉ not_receptor_set)
                         (atoms mdtraj_top)]> atom_indices in
  let atom_indices :=
    <["complex" :=
        (atom_indices !!! "receptor") ++ (atom_indices !!! "ligand")]>
      atom_indices in
  mret atom_indices.

(** The call with [solvent_resnames] left at its default. *)
Definition find_components_default (topology : TopologyArg)
    (ligand_dsl : string) : M World (gmap string (list Z)) :=
  find_components topology ligand_dsl _SOLVENT_RESNAMES.

End find_components.

(** ** A small instance of the library interface

    Enough of MDTraj to run [find_components] on concrete inputs: atoms are
    numbered from zero in iteration order, [from_openmm] rejects anything
    that is not an OpenMM topology with a [TypeError], and [select]
    understands the queries [all], [none] and [resname <name>] and rejects
    the rest with a [ValueError].  Neither call touches the interpreter
    state. *)

Module Reference.

Fixpoint number_atoms (i : Z) (resnames : list string) : list Atom :=
  match resnames with
  | [] => []
  | r :: rest => mkAtom i (mkResidue r) :: number_atoms (i + 1) rest
  end.

Definition topology_of (resnames : list string) : Topology :=
  mkTopology (number_atoms 0 resnames).

Definition parse_selection (q : string) : option (Atom → bool) :=
  if decide (q = "all") then Some (λ _, true)
  else if decide (q = "none") then Some (λ _, false)
  else if String.prefix "resname " q
       then let r := String.substring 8 (String.length q - 8) q in
            Some (λ a, bool_decide (name (residue a) = r))
  else None.

#[export] Instance mdtraj : Mdtraj unit := {|
  from_openmm o :=
    match o with
    | OpenmmTopology resnames => mret (topology_of resnames)
    | PyObject ty => raise (TypeError "value must be an OpenMM Topology")
    end;
  select top q :=
    match parse_selection q with
    | Some p => mret (index <$> filter (λ a, p a = true) (atoms top))
    | None => raise (ValueError "invalid selection")
    end
|}.

End Reference.

(** ** Example systems *)

Module Systems.
Import Reference.

(** A protein residue, a ligand, a water and a sodium ion: atoms 0 to 3. *)
Definition complex_in_water : Topology :=
  topology_of ["ALA"; "LIG"; "HOH"; "NA"].


Definition partition_LIG : gmap string (list Z) :=
  <["complex" := [0; 1]]> (<["receptor" := [0]]>
    (<["solvent" := [2; 3]]> (<["ligand" := [1]]> ∅))).

Definition partition_none : gmap string (list Z) :=
  <["complex" := [0; 1]]> (<["receptor" := [0; 1]]>
    (<["solvent" := [2; 3]]> (<["ligand" := []]> ∅))).





(** Water alone counted as solvent: the sodium ion goes to the receptor. *)
Definition partition_water_only : gmap string (list Z) :=
  <["complex" := [0; 3; 1]]> (<["receptor" := [0; 3]]>
    (<["solvent" := [2]]> (<["ligand" := [1]]> ∅))).

End Systems.

(** ** Proof automation *)

(** Reading back entries of a dictionary built by assignments to distinct
    string keys. *)
Ltac read_entries :=
  repeat first
    [ rewrite lookup_total_insert_eq
    | rewrite lookup_total_insert_ne by done ].

(** Closes a decidable goal by evaluation. *)
Ltac by_evaluation := apply (bool_decide_unpack _); vm_compute; exact I.

(** ** General facts about lists *)

Section list_facts.
Context {A B : Type}.

(** Two filters agree when their predicates agree on the list. *)
Lemma filter_ext_elem_of (P Q : A → Prop)
    `{!∀ x, Decision (P x)} `{!∀ x, Decision (Q x)} (l : list A) :
  (∀ x, x ∈ l → (P x ↔ Q x)) → filter P l = filter Q l.
Proof.
  induction l as [|x l IH]; intros HPQ; [done|].
  rewrite !filter_cons.
  assert (filter P l = filter Q l) as ->.
  { apply IH. intros y Hy. apply HPQ. by right. }
  assert (P x ↔ Q x) as Hx by (apply HPQ; left).
  destruct (decide (P x)), (decide (Q x)); tauto.
Qed.


(** When the attribute has no duplicates it identifies the element. *)
Lemma NoDup_fmap_elem_of_inj (f : A → B) (l : list A) (x y : A) :
  NoDup (f <$> l) → x ∈ l → y ∈ l → f x = f y → x = y.
Proof.
  induction l as [|z l IH]; [by intros _ ?%elem_of_nil|].
  rewrite fmap_cons, NoDup_cons.
  intros [Hz Hnd] [->|Hx]%elem_of_cons [->|Hy]%elem_of_cons Hf; auto.
  - destruct Hz. rewrite Hf. by apply list_elem_of_fmap_2.
  - destruct Hz. rewrite <- Hf. by apply list_elem_of_fmap_2.
Qed.


End list_facts.

Lemma StronglySorted_sublist_of {A} (R : relation A) (l k : list A) :
  l `sublist_of` k → StronglySorted R k → StronglySorted R l.
Proof.
  intros Hlk. induction Hlk as [|x l k Hlk IH|x l k Hlk IH];
    rewrite ?StronglySorted_cons; [done| |by intros [_ ?]; apply IH].
  intros [Hall Hk]. split; [|by apply IH].
  rewrite Forall_forall in Hall |- *.
  intros y Hy. apply Hall. by apply (sublist_subseteq _ _ Hlk).
Qed.

Lemma StronglySorted_lt_NoDup (l : list Z) :
  StronglySorted Z.lt l → NoDup l.
Proof.
  induction l as [|x l IH]; [constructor|].
  rewrite StronglySorted_cons, NoDup_cons, Forall_forall.
  intros [Hall Hl]. split; [|by apply IH].
  intros Hx. specialize (Hall _ Hx). lia.
Qed.

(** ** What a successful call returns *)

Section find_components_facts.
Context {World : Type} `{!Mdtraj World}.
Implicit Types (topology : TopologyArg) (top : Topology) (S : gset string).
Implicit Types (r : gmap string (list Z)) (w : World).

(** A call returns exactly when the conversion and the selection return;
    the four entries of the dictionary are then as follows. *)
Lemma find_components_Ok topology q S w r w' :
  find_components topology q S w = (Ok r, w') ↔
  ∃ top w1 lig,
    to_mdtraj topology w = (Ok top, w1) ∧
    select top q w1 = (Ok lig, w') ∧
    let sol := index <$> filter (λ a, name (residue a) ∈ S) (atoms top) in
    let rec :=
      index <$> filter (λ a, index a ∉ (list_to_set (lig ++ sol) : gset Z))
                       (atoms top) in
    r = <["complex" := rec ++ lig]>
          (<["receptor" := rec]>
             (<["solvent" := sol]> (<["ligand" := lig]> ∅))).
Proof.
  unfold find_components, mbind, M_bind, mret, M_ret. cbn zeta.
  split.
  - destruct (to_mdtraj topology w) as [[top|e] w1]; [|done].
    destruct (select top q w1) as [[lig|e] w2] eqn:Hsel; [|done].
    intros [= <- <-]. exists top, w1, lig.
    by read_entries.
  - intros (top & w1 & lig & -> & -> & ->).
    by read_entries.
Qed.

(** An exception of either library call ends the call. *)
Lemma find_components_Raise topology q S w e w' :
  find_components topology q S w = (Raise e, w') ↔
  to_mdtraj topology w = (Raise e, w') ∨
  ∃ top w1, to_mdtraj topology w = (Ok top, w1) ∧
            select top q w1 = (Raise e, w').
Proof.
  unfold find_components, mbind, M_bind, mret, M_ret.
  destruct (to_mdtraj topology w) as [[top|e1] w1].
  - destruct (select top q w1) as [[lig|e2] w2] eqn:Hsel; split.
    + discriminate.
    + intros [[=]|(? & ? & [= <- <-] & Hsel')]. congruence.
    + intros [= <- <-]. right. by exists top, w1.
    + intros [[=]|(? & ? & [= <- <-] & Hsel')]. congruence.
  - split; [intros [= <- <-]; by left|].
    intros [[= <- <-]|(? & ? & Hne & _)]; [done|discriminate Hne].
Qed.

(** The entries of the returned dictionary, key by key. *)
Lemma find_components_lookup topology q S w r w' top w1 :
  find_components topology q S w = (Ok r, w') →
  to_mdtraj topology w = (Ok top, w1) →
  select top q w1 = (Ok (r !!! "ligand"), w') ∧
  (r !!! "solvent") =
    index <$> filter (λ a, name (residue a) ∈ S) (atoms top) ∧
  (r !!! "receptor") =
    index <$> filter (λ a, (index a ∉ r !!! "ligand") ∧
                           (index a ∉ r !!! "solvent")) (atoms top) ∧
  (r !!! "complex") = (r !!! "receptor") ++ (r !!! "ligand").
Proof.
  intros (top' & w1' & lig & Htop & Hsel & ->)%find_components_Ok Htop'.
  rewrite Htop in Htop'. injection Htop' as <- <-.
  cbn zeta.
  read_entries.
  split_and!; [done..| |done].
  f_equal. apply filter_ext_elem_of. intros a _.
  rewrite elem_of_list_to_set, elem_of_app. tauto.
Qed.

(** The dictionary has the four keys and no other. *)
Lemma find_components_keys topology q S w r w' :
  find_components topology q S w = (Ok r, w') →
  dom r = {["ligand"; "solvent"; "receptor"; "complex"]}.
Proof.
  intros (top & w1 & lig & _ & _ & ->)%find_components_Ok.
  cbn zeta. rewrite !dom_insert_L, dom_empty_L. set_solver.
Qed.

End find_components_facts.

(** ** The partition *)

Section partition.
Context {World : Type} `{!Mdtraj World}.
Implicit Types (topology : TopologyArg) (top : Topology) (S : gset string).
Implicit Types (r : gmap string (list Z)) (w : World).

(** An index is in the solvent list exactly when some atom with that index
    has a residue name in [S]. *)
Lemma elem_of_solvent topology q S w r w' top w1 (i : Z) :
  find_components topology q S w = (Ok r, w') →
  to_mdtraj topology w = (Ok top, w1) →
  i ∈ (r !!! "solvent") ↔
  ∃ a, a ∈ atoms top ∧ index a = i ∧ name (residue a) ∈ S.
Proof.
  intros Hrun Htop.
  destruct (find_components_lookup _ _ _ _ _ _ _ _ Hrun Htop)
    as (_ & -> & _ & _).
  rewrite list_elem_of_fmap. setoid_rewrite list_elem_of_filter.
  split; intros (a & ? & ?); exists a; intuition.
Qed.

(** When indices identify atoms, this is a criterion on the atom. *)
Lemma elem_of_solvent_atom topology q S w r w' top w1 (a : Atom) :
  find_components topology q S w = (Ok r, w') →
  to_mdtraj topology w = (Ok top, w1) →
  NoDup (index <$> atoms top) →
  a ∈ atoms top →
  index a ∈ r !!! "solvent" ↔ name (residue a) ∈ S.
Proof.
  intros Hrun Htop Hnd Ha.
  rewrite (elem_of_solvent _ _ _ _ _ _ _ _ _ Hrun Htop). split.
  - intros (b & Hb & Hidx & HS).
    by rewrite <- (NoDup_fmap_elem_of_inj index _ _ _ Hnd Hb Ha Hidx).
  - intros HS. by exists a.
Qed.

(** An index is in the receptor list exactly when it is the index of an
    atom and is in neither of the other two lists. *)
Lemma elem_of_receptor topology q S w r w' top w1 (i : Z) :
  find_components topology q S w = (Ok r, w') →
  to_mdtraj topology w = (Ok top, w1) →
  i ∈ (r !!! "receptor") ↔
  i ∈ index <$> atoms top ∧ (i ∉ r !!! "ligand") ∧ (i ∉ r !!! "solvent").
Proof.
  intros Hrun Htop.
  destruct (find_components_lookup _ _ _ _ _ _ _ _ Hrun Htop)
    as (_ & _ & Hrec & _).
  rewrite Hrec at 1.
  rewrite !list_elem_of_fmap. setoid_rewrite list_elem_of_filter.
  split.
  - intros (a & -> & ? & ?). split; [by exists a|done].
  - intros [(a & -> & ?) ?]. by exists a.
Qed.

(** C1, as amended: the receptor list shares no index with the ligand list
    and none with the solvent list; the ligand and solvent lists share no
    index when the query selects no atom whose residue name is in the
    solvent name set. *)
Theorem find_components_disjoint topology q S w r w' top w1 :
  find_components topology q S w = (Ok r, w') →
  to_mdtraj topology w = (Ok top, w1) →
  (r !!! "ligand") ## (r !!! "receptor") ∧
  (r !!! "solvent") ## (r !!! "receptor") ∧
  ((∀ a, a ∈ atoms top → index a ∈ (r !!! "ligand") →
         name (residue a) ∉ S) →
   (r !!! "ligand") ## (r !!! "solvent")).
Proof.
  intros Hrun Htop. split_and!.
  - intros i Hlig Hrec.
    apply (elem_of_receptor _ _ _ _ _ _ _ _ _ Hrun Htop) in Hrec. tauto.
  - intros i Hsol Hrec.
    apply (elem_of_receptor _ _ _ _ _ _ _ _ _ Hrun Htop) in Hrec. tauto.
  - intros Hq i Hlig Hsol.
    apply (elem_of_solvent _ _ _ _ _ _ _ _ _ Hrun Htop) in Hsol
      as (a & Ha & <- & HS).
    by apply (Hq a).
Qed.



(** C4: with the default solvent names and atom indices that identify the
    atoms, the index of an atom is in the solvent list exactly when the
    name of its residue is one of [_SOLVENT_RESNAMES]. *)
Theorem find_components_solvent_iff topology q w r w' top w1 :
  find_components_default topology q w = (Ok r, w') →
  to_mdtraj topology w = (Ok top, w1) →
  NoDup (index <$> atoms top) →
  ∀ a, a ∈ atoms top →
    index a ∈ r !!! "solvent" ↔ name (residue a) ∈ _SOLVENT_RESNAMES.
Proof.
  intros Hrun Htop Hnd a Ha.
  exact (elem_of_solvent_atom _ _ _ _ _ _ _ _ _ Hrun Htop Hnd Ha).
Qed.


(** C7: when the query selects no atom, the ligand list is empty and the
    receptor and complex lists are equal, both being the indices of the
    atoms whose residue name is not a solvent name. *)
Theorem find_components_no_ligand topology q S w r w' top w1 w2 :
  find_components topology q S w = (Ok r, w') →
  to_mdtraj topology w = (Ok top, w1) →
  select top q w1 = (Ok [], w2) →
  NoDup (index <$> atoms top) →
  r !!! "ligand" = [] ∧
  r !!! "receptor" = r !!! "complex" ∧
  r !!! "receptor" =
    index <$> filter (λ a, name (residue a) ∉ S) (atoms top).
Proof.
  intros Hrun Htop Hsel Hnd.
  pose proof (λ i, elem_of_solvent _ _ _ _ _ _ _ _ i Hrun Htop) as Hsolvent.
  destruct (find_components_lookup _ _ _ _ _ _ _ _ Hrun Htop)
    as (Hlig & _ & Hrec & Hcpx).
  rewrite Hsel in Hlig. injection Hlig as Hlig _.
  rewrite Hcpx, <- Hlig, app_nil_r. split_and!; [done..|].
  rewrite Hrec. f_equal.
  apply filter_ext_elem_of. intros a Ha.
  rewrite Hsolvent, <- Hlig, elem_of_nil. split.
  - intros [_ Hsol] HS. apply Hsol. by exists a.
  - intros HS. split; [tauto|]. intros (b & Hb & Hidx & HSb).
    by rewrite (NoDup_fmap_elem_of_inj index _ _ _ Hnd Hb Ha Hidx) in HSb.
Qed.


(** C10: when the atoms are enumerated in increasing order of index, the
    solvent list is strictly increasing and has no duplicates. *)
Theorem find_components_solvent_sorted topology q S w r w' top w1 :
  find_components topology q S w = (Ok r, w') →
  to_mdtraj topology w = (Ok top, w1) →
  StronglySorted Z.lt (index <$> atoms top) →
  StronglySorted Z.lt (r !!! "solvent") ∧ NoDup (r !!! "solvent").
Proof.
  intros Hrun Htop Hsorted.
  assert (StronglySorted Z.lt (r !!! "solvent")) as Hsol.
  { destruct (find_components_lookup _ _ _ _ _ _ _ _ Hrun Htop)
      as (_ & -> & _ & _).
    eapply StronglySorted_sublist_of; [|done].
    apply fmap_sublist, sublist_filter. }
  split; [done|]. by apply StronglySorted_lt_NoDup.
Qed.

End partition.

(** ** Errors *)

Section effects.
Context {World : Type} `{!Mdtraj World}.
Implicit Types (topology : TopologyArg) (S : gset string) (w : World).

(** C6: for an argument that is not an [mdtraj.Topology] and that
    [from_openmm] rejects, the call raises the exception of [from_openmm]
    and returns no dictionary. *)
Theorem find_components_unsupported (o : Foreign) q S w e w' :
  from_openmm o w = (Raise e, w') →
  isinstance_mdtraj (NotMdtraj o) = false ∧
  find_components (NotMdtraj o) q S w = (Raise e, w').
Proof.
  intros Hconv. split; [done|].
  apply find_components_Raise. by left.
Qed.

End effects.

(** ** Further properties of the returned dictionary *)

Lemma filter_sublist_impl {A} (P Q : A → Prop)
    `{!∀ x, Decision (P x)} `{!∀ x, Decision (Q x)} (l : list A) :
  (∀ x, x ∈ l → P x → Q x) → filter P l `sublist_of` filter Q l.
Proof.
  induction l as [|x l IH]; intros HPQ; [done|].
  rewrite !filter_cons.
  assert (filter P l `sublist_of` filter Q l) as Hl.
  { apply IH. intros y Hy. apply HPQ. by right. }
  assert (P x → Q x) as Hx by (apply HPQ; left).
  destruct (decide (P x)), (decide (Q x)).
  - by apply sublist_skip.
  - tauto.
  - by apply sublist_cons.
  - done.
Qed.

Section more.
Context {World : Type} `{!Mdtraj World}.
Implicit Types (topology : TopologyArg) (top : Topology) (S : gset string).
Implicit Types (r : gmap string (list Z)) (w : World).

(** X1: the call returns whenever the conversion and the selection return: it
    has no failure of its own, and the four entries are present. *)
Theorem find_components_returns topology q S w top w1 lig w' :
  to_mdtraj topology w = (Ok top, w1) →
  select top q w1 = (Ok lig, w') →
  ∃ r, find_components topology q S w = (Ok r, w') ∧
       r !! "ligand" = Some lig ∧
       is_Some (r !! "solvent") ∧ is_Some (r !! "receptor") ∧
       is_Some (r !! "complex").
Proof.
  intros Htop Hsel. eexists. split.
  - apply find_components_Ok. exists top, w1, lig. by split_and!.
  - cbn zeta. by simplify_map_eq.
Qed.

(** X2: an exception of [select] on the converted topology is the exception of
    the call, and the state is the one [select] left. *)
Theorem find_components_invalid_query topology q S w top w1 e w' :
  to_mdtraj topology w = (Ok top, w1) →
  select top q w1 = (Raise e, w') →
  find_components topology q S w = (Raise e, w').
Proof.
  intros Htop Hsel. apply find_components_Raise. right. by exists top, w1.
Qed.

(** X3: passing an object that [from_openmm] converts is the same as passing the
    converted topology in the state the conversion left. *)
Theorem find_components_converted (o : Foreign) q S w top w1 :
  from_openmm o w = (Ok top, w1) →
  find_components (NotMdtraj o) q S w =
  find_components (MdtrajTopology top) q S w1.
Proof.
  intros Hconv.
  unfold find_components, mbind, M_bind, mret, M_ret, to_mdtraj.
  by rewrite Hconv.
Qed.

(** X4: a key has an entry in the returned dictionary exactly when it is one
    of [ligand], [solvent], [receptor] and [complex]. *)
Theorem find_components_only_four_keys topology q S w r w' (key : string) :
  find_components topology q S w = (Ok r, w') →
  is_Some (r !! key) ↔
  key = "ligand" ∨ key = "solvent" ∨ key = "receptor" ∨ key = "complex".
Proof.
  intros Hrun.
  rewrite <- elem_of_dom, (find_components_keys _ _ _ _ _ _ Hrun).
  rewrite !elem_of_union, !elem_of_singleton. tauto.
Qed.


(** X6: when the atoms are enumerated in increasing order of index, the receptor
    list is strictly increasing and has no duplicates. *)
Theorem find_components_receptor_sorted topology q S w r w' top w1 :
  find_components topology q S w = (Ok r, w') →
  to_mdtraj topology w = (Ok top, w1) →
  StronglySorted Z.lt (index <$> atoms top) →
  StronglySorted Z.lt (r !!! "receptor") ∧ NoDup (r !!! "receptor").
Proof.
  intros Hrun Htop Hsorted.
  assert (StronglySorted Z.lt (r !!! "receptor")) as Hrec.
  { destruct (find_components_lookup _ _ _ _ _ _ _ _ Hrun Htop)
      as (_ & _ & -> & _).
    eapply StronglySorted_sublist_of; [|done].
    apply fmap_sublist, sublist_filter. }
  split; [done|]. by apply StronglySorted_lt_NoDup.
Qed.

(** X7: when atom indices are distinct and the selection has no duplicates, the
    complex list has no duplicates. *)
Theorem find_components_complex_NoDup topology q S w r w' top w1 :
  find_components topology q S w = (Ok r, w') →
  to_mdtraj topology w = (Ok top, w1) →
  NoDup (index <$> atoms top) →
  NoDup (r !!! "ligand") →
  NoDup (r !!! "complex").
Proof.
  intros Hrun Htop Hnd Hlig.
  destruct (find_components_lookup _ _ _ _ _ _ _ _ Hrun Htop)
    as (_ & _ & Hrec & ->).
  apply NoDup_app. split_and!; [|intros i Hi|done].
  - rewrite Hrec. apply (sublist_NoDup _ _ Hnd).
    apply fmap_sublist, sublist_filter.
  - apply (elem_of_receptor _ _ _ _ _ _ _ _ _ Hrun Htop) in Hi. tauto.
Qed.




(** X11: two calls in the same state that differ in the solvent names only: with
    more names the ligand list is the same, the solvent list grows and the
    receptor list shrinks, each keeping its order. *)
Theorem find_components_more_solvent topology q S1 S2 w r1 w1' r2 w2' :
  find_components topology q S1 w = (Ok r1, w1') →
  find_components topology q S2 w = (Ok r2, w2') →
  S1 ⊆ S2 →
  r1 !!! "ligand" = r2 !!! "ligand" ∧
  (r1 !!! "solvent") `sublist_of` (r2 !!! "solvent") ∧
  (r2 !!! "receptor") `sublist_of` (r1 !!! "receptor").
Proof.
  intros Hrun1 Hrun2 Hsub.
  destruct (proj1 (find_components_Ok _ _ _ _ _ _) Hrun1)
    as (top & w1 & lig & Htop & Hsel & _).
  pose proof (λ i, elem_of_solvent _ _ _ _ _ _ _ _ i Hrun1 Htop) as Hsolvent1.
  pose proof (λ i, elem_of_solvent _ _ _ _ _ _ _ _ i Hrun2 Htop) as Hsolvent2.
  destruct (find_components_lookup _ _ _ _ _ _ _ _ Hrun1 Htop)
    as (Hlig1 & Hsol1 & Hrec1 & _).
  destruct (find_components_lookup _ _ _ _ _ _ _ _ Hrun2 Htop)
    as (Hlig2 & Hsol2 & Hrec2 & _).
  assert (r1 !!! "ligand" = r2 !!! "ligand") as Hlig by congruence.
  split_and!; [done| |].
  - rewrite Hsol1, Hsol2. apply fmap_sublist, filter_sublist_impl.
    intros a _ Ha. by apply Hsub.
  - rewrite Hrec1, Hrec2. apply fmap_sublist, filter_sublist_impl.
    intros a _ [Hl Hs]. rewrite Hlig. split; [done|].
    rewrite Hsolvent1. rewrite Hsolvent2 in Hs.
    intros (b & Hb & Hidx & HS). apply Hs. exists b.
    split_and!; [done..|]. by apply Hsub.
Qed.

(** X12: two calls on the same topology that differ in the query only return the
    same solvent list. *)
Theorem find_components_solvent_query_independent
    topology q1 q2 S w r1 w1' r2 w2' :
  find_components topology q1 S w = (Ok r1, w1') →
  find_components topology q2 S w = (Ok r2, w2') →
  r1 !!! "solvent" = r2 !!! "solvent".
Proof.
  intros Hrun1 Hrun2.
  destruct (proj1 (find_components_Ok _ _ _ _ _ _) Hrun1)
    as (top & w1 & lig & Htop & _ & _).
  destruct (find_components_lookup _ _ _ _ _ _ _ _ Hrun1 Htop)
    as (_ & -> & _ & _).
  by destruct (find_components_lookup _ _ _ _ _ _ _ _ Hrun2 Htop)
    as (_ & -> & _ & _).
Qed.

End more.

(** ** Runs on concrete inputs *)

Module Examples.
Import Reference Systems.

Lemma Forall_elem_of {A} (P : A → Prop) (l : list A) :
  Forall P l → ∀ x, x ∈ l → P x.
Proof. apply Forall_forall. Qed.

Lemma run_LIG :
  find_components_default (MdtrajTopology complex_in_water) "resname LIG" ()
  = (Ok partition_LIG, ()).
Proof. reflexivity. Qed.


Lemma run_none :
  find_components (MdtrajTopology complex_in_water) "none"
    _SOLVENT_RESNAMES ()
  = (Ok partition_none, ()).
Proof. reflexivity. Qed.


Lemma run_invalid_query :
  find_components (MdtrajTopology complex_in_water) "resnam LIG"
    _SOLVENT_RESNAMES ()
  = (Raise (ValueError "invalid selection"), ()).
Proof. reflexivity. Qed.

(** Membership in the name set is exact: [HOH] is a solvent name, [hoh]
    is not, and neither is [WAT]. *)
Lemma HOH_solvent : "HOH" ∈ _SOLVENT_RESNAMES.
Proof. by_evaluation. Qed.

Lemma hoh_not_solvent : "hoh" ∉ _SOLVENT_RESNAMES.
Proof. by_evaluation. Qed.

Lemma WAT_not_solvent : "WAT" ∉ _SOLVENT_RESNAMES.
Proof. by_evaluation. Qed.

Lemma complex_in_water_indices :
  index <$> atoms complex_in_water = [0; 1; 2; 3].
Proof. reflexivity. Qed.

(** C1, as stated, fails when the query selects solvent: selecting the
    water puts atom 2 in the ligand list and in the solvent list. *)
Lemma find_components_ligand_solvent_overlap :
  ∃ r,
    find_components (MdtrajTopology complex_in_water) "resname HOH"
      _SOLVENT_RESNAMES () = (Ok r, ()) ∧
    ¬ ((r !!! "ligand") ## (r !!! "solvent") ∧
       (r !!! "ligand") ## (r !!! "receptor") ∧
       (r !!! "solvent") ## (r !!! "receptor")).
Proof.
  exists (<["complex" := [0; 1; 2]]> (<["receptor" := [0; 1]]>
            (<["solvent" := [2; 3]]> (<["ligand" := [2]]> ∅)))).
  split; [reflexivity|].
  intros [Hdisj _]. apply (Hdisj 2); by_evaluation.
Qed.

Lemma find_components_disjoint_witness :
  (∀ a, a ∈ atoms complex_in_water →
        index a ∈ partition_LIG !!! "ligand" →
        name (residue a) ∉ _SOLVENT_RESNAMES) ∧
  (partition_LIG !!! "ligand") ## (partition_LIG !!! "receptor") ∧
  (partition_LIG !!! "solvent") ## (partition_LIG !!! "receptor") ∧
  (partition_LIG !!! "ligand") ## (partition_LIG !!! "solvent").
Proof.
  assert (∀ a, a ∈ atoms complex_in_water →
               index a ∈ partition_LIG !!! "ligand" →
               name (residue a) ∉ _SOLVENT_RESNAMES) as Hquery.
  { refine (Forall_elem_of (λ a, _ → _) _ _). by_evaluation. }
  destruct (find_components_disjoint
              (MdtrajTopology complex_in_water) "resname LIG"
              _SOLVENT_RESNAMES () partition_LIG () complex_in_water ()
              run_LIG eq_refl) as (Hlr & Hsr & Hls).
  exact (conj Hquery (conj Hlr (conj Hsr (Hls Hquery)))).
Defined.



Lemma find_components_solvent_iff_witness :
  NoDup (index <$> atoms complex_in_water) ∧
  (2 ∈ partition_LIG !!! "solvent" ↔ "HOH" ∈ _SOLVENT_RESNAMES) ∧
  (0 ∈ partition_LIG !!! "solvent" ↔ "ALA" ∈ _SOLVENT_RESNAMES).
Proof.
  assert (NoDup (index <$> atoms complex_in_water)) as Hnd by by_evaluation.
  pose proof (find_components_solvent_iff
                (MdtrajTopology complex_in_water) "resname LIG"
                () partition_LIG () complex_in_water ()
                run_LIG eq_refl Hnd) as Hiff.
  split_and!; [exact Hnd| |].
  - apply (Hiff (mkAtom 2 (mkResidue "HOH"))). by_evaluation.
  - apply (Hiff (mkAtom 0 (mkResidue "ALA"))). by_evaluation.
Defined.


Lemma find_components_no_ligand_witness :
  select complex_in_water "none" () = (Ok [], ()) ∧
  NoDup (index <$> atoms complex_in_water) ∧
  partition_none !!! "ligand" = [] ∧
  partition_none !!! "receptor" = partition_none !!! "complex" ∧
  partition_none !!! "receptor" =
    index <$> filter (λ a, name (residue a) ∉ _SOLVENT_RESNAMES)
                     (atoms complex_in_water).
Proof.
  assert (NoDup (index <$> atoms complex_in_water)) as Hnd by by_evaluation.
  exact (conj eq_refl (conj Hnd
           (find_components_no_ligand
              (MdtrajTopology complex_in_water) "none"
              _SOLVENT_RESNAMES () partition_none () complex_in_water () ()
              run_none eq_refl eq_refl Hnd))).
Defined.


Lemma find_components_solvent_sorted_witness :
  StronglySorted Z.lt (index <$> atoms complex_in_water) ∧
  StronglySorted Z.lt (partition_LIG !!! "solvent") ∧
  NoDup (partition_LIG !!! "solvent").
Proof.
  assert (StronglySorted Z.lt (index <$> atoms complex_in_water))
    as Hsorted by by_evaluation.
  exact (conj Hsorted
           (find_components_solvent_sorted
              (MdtrajTopology complex_in_water) "resname LIG"
              _SOLVENT_RESNAMES () partition_LIG () complex_in_water ()
              run_LIG eq_refl Hsorted)).
Defined.

Lemma find_components_unsupported_witness :
  from_openmm (PyObject "str") ()
    = (Raise (TypeError "value must be an OpenMM Topology"), ()) ∧
  isinstance_mdtraj (NotMdtraj (PyObject "str")) = false ∧
  find_components (NotMdtraj (PyObject "str")) "resname LIG"
    _SOLVENT_RESNAMES ()
    = (Raise (TypeError "value must be an OpenMM Topology"), ()).
Proof.
  exact (conj eq_refl
           (find_components_unsupported (PyObject "str") "resname LIG"
              _SOLVENT_RESNAMES ()
              (TypeError "value must be an OpenMM Topology") () eq_refl)).
Defined.

(** *** Further runs *)



Lemma run_water_only :
  find_components (MdtrajTopology complex_in_water) "resname LIG"
    {["HOH"]} ()
  = (Ok partition_water_only, ()).
Proof. reflexivity. Qed.

Lemma find_components_only_four_keys_witness :
  (is_Some (partition_LIG !! "solvent") ↔
   "solvent" = "ligand" ∨ "solvent" = "solvent" ∨ "solvent" = "receptor"
   ∨ "solvent" = "complex") ∧
  (is_Some (partition_LIG !! "water") ↔
   "water" = "ligand" ∨ "water" = "solvent" ∨ "water" = "receptor"
   ∨ "water" = "complex").
Proof.
  exact (conj
           (find_components_only_four_keys
              (MdtrajTopology complex_in_water) "resname LIG"
              _SOLVENT_RESNAMES () partition_LIG () "solvent" run_LIG)
           (find_components_only_four_keys
              (MdtrajTopology complex_in_water) "resname LIG"
              _SOLVENT_RESNAMES () partition_LIG () "water" run_LIG)).
Defined.

Lemma find_components_returns_witness :
  ∃ r, find_components (MdtrajTopology complex_in_water) "resname LIG"
         _SOLVENT_RESNAMES () = (Ok r, ()) ∧
       r !! "ligand" = Some [1] ∧
       is_Some (r !! "solvent") ∧ is_Some (r !! "receptor") ∧
       is_Some (r !! "complex").
Proof.
  exact (find_components_returns
           (MdtrajTopology complex_in_water) "resname LIG"
           _SOLVENT_RESNAMES () complex_in_water () [1] () eq_refl eq_refl).
Defined.

Lemma find_components_invalid_query_witness :
  select complex_in_water "resnam LIG" ()
    = (Raise (ValueError "invalid selection"), ()) ∧
  find_components (MdtrajTopology complex_in_water) "resnam LIG"
    _SOLVENT_RESNAMES ()
    = (Raise (ValueError "invalid selection"), ()).
Proof.
  exact (conj eq_refl
           (find_components_invalid_query
              (MdtrajTopology complex_in_water) "resnam LIG"
              _SOLVENT_RESNAMES () complex_in_water ()
              (ValueError "invalid selection") () eq_refl eq_refl)).
Defined.

Lemma find_components_converted_witness :
  find_components (NotMdtraj (OpenmmTopology ["ALA"; "LIG"; "HOH"; "NA"]))
    "resname LIG" _SOLVENT_RESNAMES ()
  = find_components (MdtrajTopology complex_in_water)
      "resname LIG" _SOLVENT_RESNAMES ().
Proof.
  exact (find_components_converted
           (OpenmmTopology ["ALA"; "LIG"; "HOH"; "NA"]) "resname LIG"
           _SOLVENT_RESNAMES () complex_in_water () eq_refl).
Defined.


Lemma find_components_receptor_sorted_witness :
  StronglySorted Z.lt (index <$> atoms complex_in_water) ∧
  StronglySorted Z.lt (partition_water_only !!! "receptor") ∧
  NoDup (partition_water_only !!! "receptor").
Proof.
  assert (StronglySorted Z.lt (index <$> atoms complex_in_water))
    as Hsorted by by_evaluation.
  exact (conj Hsorted
           (find_components_receptor_sorted
              (MdtrajTopology complex_in_water) "resname LIG"
              {["HOH"]} () partition_water_only () complex_in_water ()
              run_water_only eq_refl Hsorted)).
Defined.

Lemma find_components_complex_NoDup_witness :
  NoDup (index <$> atoms complex_in_water) ∧
  NoDup (partition_water_only !!! "ligand") ∧
  NoDup (partition_water_only !!! "complex").
Proof.
  assert (NoDup (index <$> atoms complex_in_water)) as Hnd by by_evaluation.
  assert (NoDup (partition_water_only !!! "ligand")) as Hlig
    by by_evaluation.
  exact (conj Hnd (conj Hlig
           (find_components_complex_NoDup
              (MdtrajTopology complex_in_water) "resname LIG"
              {["HOH"]} () partition_water_only () complex_in_water ()
              run_water_only eq_refl Hnd Hlig))).
Defined.




Lemma find_components_more_solvent_witness :
  {["HOH"]} ⊆ _SOLVENT_RESNAMES ∧
  partition_water_only !!! "ligand" = partition_LIG !!! "ligand" ∧
  (partition_water_only !!! "solvent")
    `sublist_of` (partition_LIG !!! "solvent") ∧
  (partition_LIG !!! "receptor")
    `sublist_of` (partition_water_only !!! "receptor").
Proof.
  assert ({["HOH"]} ⊆ _SOLVENT_RESNAMES) as Hsub.
  { apply singleton_subseteq_l. by_evaluation. }
  exact (conj Hsub
           (find_components_more_solvent
              (MdtrajTopology complex_in_water) "resname LIG"
              {["HOH"]} _SOLVENT_RESNAMES () partition_water_only ()
              partition_LIG () run_water_only run_LIG Hsub)).
Defined.

Lemma find_components_solvent_query_independent_witness :
  partition_LIG !!! "solvent" = partition_none !!! "solvent".
Proof.
  exact (find_components_solvent_query_independent
           (MdtrajTopology complex_in_water) "resname LIG" "none"
           _SOLVENT_RESNAMES () partition_LIG () partition_none ()
           run_LIG run_none).
Defined.

End Examples.
